(** * A POSIX-threads shim over the Win32 API: src/arch/windows_stub/pthread.cc

    The file maps pthread_create / pthread_join, the mutex and condition
    variable calls and pthread_once onto CreateThread, critical sections and
    Win32 condition variables.  The embedding below follows the source function
    by function.  Every pthread function is a computation in a state-and-error
    monad over a [World]: the caller-visible memory, the kernel objects the
    Win32 calls act on, and the diagnostic log. *)

From Stdlib Require Import ZArith String List Bool Lia.
From stdpp Require Import base option gmap.
Import ListNotations.

Open Scope Z_scope.

(** ** Outcomes and the state-and-error monad *)

(** How a call can end: it returns, a fatal assertion halts the process, or the
    calling thread is suspended inside the call (it cannot complete in the
    current state). *)
Inductive Res (A : Type) : Type :=
| Ok (a : A)
| Abort (msg : string)
| Blocked.

Arguments Ok {A} a.
Arguments Abort {A} msg.
Arguments Blocked {A}.

Definition ST (S A : Type) : Type := S -> Res A * S.

Definition ret {S A : Type} (a : A) : ST S A := fun s => (Ok a, s).

Definition bind {S A B : Type} (c : ST S A) (k : A -> ST S B) : ST S B :=
  fun s =>
    match c s with
    | (Ok a, s') => k a s'
    | (Abort msg, s') => (Abort msg, s')
    | (Blocked, s') => (Blocked, s')
    end.

Declare Scope pth_scope.
Delimit Scope pth_scope with pth.
Notation "x <- c ;; k" := (bind c (fun x => k))
  (at level 100, c at next level, right associativity) : pth_scope.
Notation "c ;; k" := (bind c (fun _ => k))
  (at level 100, right associativity) : pth_scope.
Open Scope pth_scope.

(** ** Values *)

(** Pointers and [uintptr_t] are 64-bit words, [DWORD] is a 32-bit word; both are
    carried as [Z] with the conversions written out. *)
Definition uintptr (p : Z) : Z := p mod 2 ^ 64.
Definition to_DWORD (p : Z) : Z := p mod 2 ^ 32.

Definition NULL : Z := 0.
Definition EINVAL : Z := 22.
Definition INFINITE : Z := 0xFFFFFFFF.
Definition WAIT_OBJECT_0 : Z := 0.
Definition WAIT_FAILED : Z := 0xFFFFFFFF.
Definition STILL_ACTIVE : Z := 259.
Definition ERROR_INVALID_HANDLE : Z := 6.
Definition ERROR_NOT_ENOUGH_MEMORY : Z := 8.
Definition ERROR_INVALID_PARAMETER : Z := 87.

(** Modelled from the spec: the two guard constants of the missing pthread.h.
    The guard is a [bool]; not-started is [false] and completed is [true]. *)
Definition PTHREAD_ONCE_INIT : bool := false.
Definition PTHREAD_ONCE_COMPLETED : bool := true.

(** Caller-visible memory: one word per address.  Address 0 is the null
    pointer. *)
Abbreviation Mem := (gmap Z Z).

(** [void *( * )(void * )]: a thread entry function reads and writes memory and
    returns a pointer. *)
Definition start_fn : Type := Z -> Mem -> Z * Mem.

(** [std::tuple<void *( * )(void * ), void *>].  The tuple allocated by
    pthread_create and freed by the thunk is passed by value. *)
Definition data_t : Type := (start_fn * Z)%type.

(** A thread routine applied to its parameter. *)
Definition thread_proc : Type := ST Mem Z.

(** ** Kernel objects *)

Record Thread : Type := mkThread {
  th_proc : thread_proc;
  th_stack : Z;
  th_exit : option Z
}.

(** A CRITICAL_SECTION: the owning thread and its recursion count. *)
Record CritSec : Type := mkCritSec {
  cs_owner : option Z;
  cs_depth : nat
}.

(** A CONDITION_VARIABLE: threads asleep on it, and threads already woken that
    have not yet re-entered their critical section. *)
Record CondVar : Type := mkCondVar {
  cv_waiting : list Z;
  cv_woken : list Z
}.

Record World : Type := mkWorld {
  w_mem : gmap Z Z;
  w_threads : gmap Z Thread;
  w_quota : nat;
  w_last_error : Z;
  w_log : list string;
  w_crit : gmap Z CritSec;
  w_cond : gmap Z CondVar;
  w_self : Z
}.

Definition M (A : Type) : Type := ST World A.

Definition with_mem (m : gmap Z Z) (w : World) : World :=
  mkWorld m (w_threads w) (w_quota w) (w_last_error w) (w_log w)
          (w_crit w) (w_cond w) (w_self w).
Definition with_threads (t : gmap Z Thread) (w : World) : World :=
  mkWorld (w_mem w) t (w_quota w) (w_last_error w) (w_log w)
          (w_crit w) (w_cond w) (w_self w).
Definition with_quota (q : nat) (w : World) : World :=
  mkWorld (w_mem w) (w_threads w) q (w_last_error w) (w_log w)
          (w_crit w) (w_cond w) (w_self w).
Definition with_last_error (e : Z) (w : World) : World :=
  mkWorld (w_mem w) (w_threads w) (w_quota w) e (w_log w)
          (w_crit w) (w_cond w) (w_self w).
Definition with_log (l : list string) (w : World) : World :=
  mkWorld (w_mem w) (w_threads w) (w_quota w) (w_last_error w) l
          (w_crit w) (w_cond w) (w_self w).
Definition with_crit (c : gmap Z CritSec) (w : World) : World :=
  mkWorld (w_mem w) (w_threads w) (w_quota w) (w_last_error w) (w_log w)
          c (w_cond w) (w_self w).
Definition with_cond (c : gmap Z CondVar) (w : World) : World :=
  mkWorld (w_mem w) (w_threads w) (w_quota w) (w_last_error w) (w_log w)
          (w_crit w) c (w_self w).
Definition with_self (t : Z) (w : World) : World :=
  mkWorld (w_mem w) (w_threads w) (w_quota w) (w_last_error w) (w_log w)
          (w_crit w) (w_cond w) t.

(** A process that has just started: nothing allocated, [quota] execution
    contexts available, the main thread (id 1) running. *)
Definition boot (quota : nat) : World :=
  mkWorld ∅ ∅ quota 0 [] ∅ ∅ 1.

(** ** Memory access *)

Definition load (p : Z) : M Z :=
  fun w =>
    if p =? NULL then (Abort "access violation", w)
    else
      match w_mem w !! p with
      | Some v => (Ok v, w)
      | None => (Abort "access violation", w)
      end.

Definition store (p v : Z) : M unit :=
  fun w =>
    if p =? NULL then (Abort "access violation", w)
    else (Ok tt, with_mem (<[p := v]> (w_mem w)) w).

Definition load_bool (p : Z) : M bool :=
  v <- load p ;; ret (negb (v =? 0)).

Definition store_bool (p : Z) (b : bool) : M unit := store p (Z.b2z b).

(** Calling back into client code: a [void( * )(void)] runs on the memory. *)
Definition call (f : Mem -> Mem) : M unit :=
  fun w => (Ok tt, with_mem (f (w_mem w)) w).

(** ** errors.hpp and logger.hpp *)

(** Modelled from the spec: the [rassert] macro of the missing errors.hpp, a
    fatal assertion that halts the process with a diagnostic when its
    condition is false. *)
Definition rassert {S : Type} (cond : bool) (msg : string) : ST S unit :=
  fun s => if cond then (Ok tt, s) else (Abort msg, s).

(** Modelled from the spec: the [guarantee_winerr] macro of the missing
    errors.hpp, fatal when the Win32 call it wraps reports failure. *)
Definition guarantee_winerr {S : Type} (ok : bool) : ST S unit :=
  fun s => if ok then (Ok tt, s) else (Abort "guarantee_winerr failed", s).

(** Modelled from the spec: [winerr_string] of the missing errors.hpp, the
    native description of an OS error code. *)
Definition winerr_string (code : Z) : string :=
  if code =? ERROR_INVALID_HANDLE then "The handle is invalid."
  else if code =? ERROR_NOT_ENOUGH_MEMORY then
    "Not enough memory resources are available to process this command."
  else if code =? ERROR_INVALID_PARAMETER then "The parameter is incorrect."
  else "Unknown error.".

(** Modelled from the spec: [logERR] of the missing logger.hpp, the diagnostic
    sink.  The format string has one [%s]; the entry is the prefix followed by
    the argument. *)
Definition logERR (prefix arg : string) : M unit :=
  fun w => (Ok tt, with_log (w_log w ++ [(prefix ++ arg)%string]) w).

(** ** The Win32 calls the shim makes

    The operating system is an external collaborator.  Each call below has the
    documented behaviour of the Win32 function of the same name, on the kernel
    objects of the [World]. *)

Module Win32.

(** Handles are nonzero and never reused. *)
Definition fresh_handle (t : gmap Z Thread) : Z :=
  1 + foldr Z.max 0 (fst <$> map_to_list t).

(** CreateThread: when the system has an execution context left, a new
    thread object is registered ([lpStartAddress] applied to [lpParameter],
    the requested stack size, not yet exited) and its handle returned;
    otherwise NULL is returned and the last-error code set. *)
Definition CreateThread (lpThreadAttributes dwStackSize : Z)
    (lpStartAddress : data_t -> thread_proc) (lpParameter : data_t)
    (dwCreationFlags lpThreadId : Z) : M Z :=
  fun w =>
    match w_quota w with
    | O => (Ok NULL, with_last_error ERROR_NOT_ENOUGH_MEMORY w)
    | S q =>
        let h := fresh_handle (w_threads w) in
        let t := mkThread (lpStartAddress lpParameter) dwStackSize None in
        (Ok h, with_quota q (with_threads (<[h := t]> (w_threads w)) w))
    end.

Definition GetLastError : M Z := fun w => (Ok (w_last_error w), w).

(** The scheduler runs thread [h] to the end of its routine: the routine's
    DWORD result becomes the exit code.  A fatal assertion inside the
    routine halts the process. *)
Definition run_thread (h : Z) : M unit :=
  fun w =>
    match w_threads w !! h with
    | Some t =>
        match th_exit t with
        | Some _ => (Ok tt, w)
        | None =>
            match th_proc t (w_mem w) with
            | (Ok code, m') =>
                let t' := mkThread (th_proc t) (th_stack t) (Some code) in
                (Ok tt, with_threads (<[h := t']> (w_threads w)) (with_mem m' w))
            | (Abort msg, m') => (Abort msg, with_mem m' w)
            | (Blocked, m') => (Blocked, with_mem m' w)
            end
        end
    | None => (Ok tt, w)
    end.

(** WaitForSingleObject on a thread handle with an infinite time-out:
    WAIT_OBJECT_0 once the thread has exited, suspension while it runs,
    WAIT_FAILED for a handle that names no object. *)
Definition WaitForSingleObject (hHandle dwMilliseconds : Z) : M Z :=
  fun w =>
    match w_threads w !! hHandle with
    | Some t =>
        match th_exit t with
        | Some _ => (Ok WAIT_OBJECT_0, w)
        | None => (Blocked, w)
        end
    | None => (Ok WAIT_FAILED, with_last_error ERROR_INVALID_HANDLE w)
    end.

(** GetExitCodeThread: the BOOL result and the value written through
    [lpExitCode]. *)
Definition GetExitCodeThread (hThread : Z) : M (bool * Z) :=
  fun w =>
    match w_threads w !! hThread with
    | Some t =>
        match th_exit t with
        | Some code => (Ok (true, code), w)
        | None => (Ok (true, STILL_ACTIVE), w)
        end
    | None => (Ok (false, 0), with_last_error ERROR_INVALID_HANDLE w)
    end.

Definition InitializeCriticalSection (cs : Z) : M unit :=
  fun w => (Ok tt, with_crit (<[cs := mkCritSec None 0]> (w_crit w)) w).

(** EnterCriticalSection: an unowned section is taken, the owner re-enters,
    any other thread is suspended until the section is released. *)
Definition EnterCriticalSection (cs : Z) : M unit :=
  fun w =>
    match w_crit w !! cs with
    | Some c =>
        match cs_owner c with
        | None =>
            (Ok tt, with_crit (<[cs := mkCritSec (Some (w_self w)) 1]> (w_crit w)) w)
        | Some o =>
            if o =? w_self w
            then (Ok tt, with_crit (<[cs := mkCritSec (Some o) (S (cs_depth c))]> (w_crit w)) w)
            else (Blocked, w)
        end
    | None => (Abort "uninitialized critical section", w)
    end.

(** LeaveCriticalSection: one level of ownership is given up, without any
    check of who calls; the section is released when the count reaches
    zero. *)
Definition LeaveCriticalSection (cs : Z) : M unit :=
  fun w =>
    match w_crit w !! cs with
    | Some c =>
        match cs_depth c with
        | O => (Abort "critical section is not owned", w)
        | S O => (Ok tt, with_crit (<[cs := mkCritSec None 0]> (w_crit w)) w)
        | S (S n) =>
            (Ok tt, with_crit (<[cs := mkCritSec (cs_owner c) (S n)]> (w_crit w)) w)
        end
    | None => (Abort "uninitialized critical section", w)
    end.

Definition InitializeConditionVariable (cv : Z) : M unit :=
  fun w => (Ok tt, with_cond (<[cv := mkCondVar [] []]> (w_cond w)) w).

Definition is_in (t : Z) (l : list Z) : bool := existsb (Z.eqb t) l.
Definition without (t : Z) (l : list Z) : list Z :=
  filter (fun x => negb (x =? t)) l.

(** SleepConditionVariableCS with an infinite time-out.  A first call
    releases the critical section and puts the caller to sleep; once the
    caller has been woken the call re-enters the critical section and
    returns TRUE.  FALSE is returned, with the last-error code set, when
    the condition variable is not a live object. *)
Definition SleepConditionVariableCS (cv cs dwMilliseconds : Z) : M bool :=
  fun w =>
    match w_cond w !! cv with
    | Some c =>
        if is_in (w_self w) (cv_woken c) then
          (EnterCriticalSection cs ;;
           (fun w' =>
              (Ok true,
               with_cond (<[cv := mkCondVar (cv_waiting c)
                                            (without (w_self w) (cv_woken c))]>
                            (w_cond w')) w'))) w
        else if is_in (w_self w) (cv_waiting c) then (Blocked, w)
        else
          (LeaveCriticalSection cs ;;
           (fun w' =>
              (Blocked,
               with_cond (<[cv := mkCondVar (cv_waiting c ++ [w_self w])
                                            (cv_woken c)]>
                            (w_cond w')) w'))) w
    | None => (Ok false, with_last_error ERROR_INVALID_PARAMETER w)
    end.

Definition WakeConditionVariable (cv : Z) : M unit :=
  fun w =>
    match w_cond w !! cv with
    | Some c =>
        match cv_waiting c with
        | t :: rest =>
            (Ok tt, with_cond (<[cv := mkCondVar rest (cv_woken c ++ [t])]> (w_cond w)) w)
        | [] => (Ok tt, w)
        end
    | None => (Ok tt, w)
    end.

Definition WakeAllConditionVariable (cv : Z) : M unit :=
  fun w =>
    match w_cond w !! cv with
    | Some c =>
        (Ok tt, with_cond (<[cv := mkCondVar [] (cv_woken c ++ cv_waiting c)]> (w_cond w)) w)
    | None => (Ok tt, w)
    end.

End Win32.

Import Win32.

(** ** pthread.cc *)

(** The condition of the assertion in the thread thunk, as the compiler reads
    it: [==] binds tighter than [|], so the operand of [|] is the comparison
    of the two constants. *)
Definition go_assertion (res : Z) : bool :=
  negb (Z.lor (uintptr res) (Z.b2z (0xFFFFFFFF =? 0xFFFFFFFF)) =? 0).

(** The thunk [go] that CreateThread runs: unpack the tuple, call the entry
    function, assert, and hand the result back as a DWORD. *)
Definition go (rawdata : data_t) : thread_proc :=
  let data := rawdata in
  let f := fst data in
  let args := snd data in
  res <- (fun m => let '(r, m') := f args m in (Ok r, m')) ;;
  rassert (go_assertion res)
          "reinterpret_cast<uintptr_t>(res) | 0xFFFFFFFF == 0xFFFFFFFF" ;;
  ret (to_DWORD res).

Definition pthread_create (thread attr : Z) (start_routine : start_fn) (arg : Z)
  : M Z :=
  let data : data_t := (start_routine, arg) in
  handle <- CreateThread NULL 0 go data 0 NULL ;;
  if handle =? NULL then
    err <- GetLastError ;;
    logERR "CreateThread failed: " (winerr_string err) ;;
    ret EINVAL
  else
    store thread handle ;;
    ret 0.

Definition pthread_join (other retval : Z) : M Z :=
  res <- WaitForSingleObject other INFINITE ;;
  if negb (res =? WAIT_OBJECT_0) then
    ret EINVAL
  else
    (if negb (retval =? NULL) then
       r <- GetExitCodeThread other ;;
       guarantee_winerr (fst r) ;;
       store retval (snd r)
     else ret tt) ;;
    ret 0.

Definition pthread_mutex_init (mutex opts : Z) : M Z :=
  rassert (opts =? NULL)
    "this implementation of pthread_mutex_init does not support attributes" ;;
  InitializeCriticalSection mutex ;;
  ret 0.

Definition pthread_mutex_destroy (mutex : Z) : M Z := ret 0.

Definition pthread_mutex_lock (mutex : Z) : M Z :=
  EnterCriticalSection mutex ;;
  ret 0.

Definition pthread_mutex_unlock (mutex : Z) : M Z :=
  LeaveCriticalSection mutex ;;
  ret 0.

Definition pthread_attr_init (attr : Z) : M Z := ret 0.

Definition pthread_attr_setstacksize (attr size : Z) : M Z := ret 0.

Definition pthread_attr_destroy (attr : Z) : M Z := ret 0.

Definition pthread_cond_init (cond opts : Z) : M Z :=
  InitializeConditionVariable cond ;;
  ret 0.

Definition pthread_cond_destroy (cond : Z) : M Z := ret 0.

Definition pthread_cond_wait (cond mutex : Z) : M Z :=
  res <- SleepConditionVariableCS cond mutex INFINITE ;;
  if (res : bool) then ret 0 else ret EINVAL.

Definition pthread_cond_signal (cond : Z) : M Z :=
  WakeConditionVariable cond ;;
  ret 0.

Definition pthread_cond_broadcast (cond : Z) : M Z :=
  WakeAllConditionVariable cond ;;
  ret 0.

Definition pthread_once (complete : Z) (init : Mem -> Mem) : M Z :=
  c <- load_bool complete ;;
  (if Bool.eqb c PTHREAD_ONCE_INIT then
     store_bool complete PTHREAD_ONCE_COMPLETED ;;
     call init
   else ret tt) ;;
  ret 0.

(** ** Clients of the shim *)

(** The result check of the thread thunk as the specification words it: the
    value fits the native result width when no bit above the low 32 is set. *)
Definition fits_native_width (res : Z) : bool :=
  Z.lor (uintptr res) 0xFFFFFFFF =? 0xFFFFFFFF.

(** A call made by thread [t]. *)
Definition as_thread {A : Type} (t : Z) (c : M A) : M A :=
  fun w => c (with_self t w).

(** Successive pthread_once calls on one guard, each with its own
    initializer; the return codes are collected in order. *)
Fixpoint once_calls (complete : Z) (inits : list (Mem -> Mem)) : M (list Z) :=
  match inits with
  | [] => ret []
  | init :: rest =>
      r <- pthread_once complete init ;;
      rs <- once_calls complete rest ;;
      ret (r :: rs)
  end.

(** Whether a critical section is owned, and whether a condition variable has
    threads asleep on it. *)
Definition mutex_held (w : World) (mutex : Z) : bool :=
  match w_crit w !! mutex with
  | Some c => match cs_owner c with Some _ => true | None => false end
  | None => false
  end.

Definition cond_has_waiters (w : World) (cond : Z) : bool :=
  match w_cond w !! cond with
  | Some c => match cv_waiting c with [] => false | _ :: _ => true end
  | None => false
  end.

(** Threads contending on mutexes.  A trace lists the lock and unlock calls
    in the order in which they complete.  Next to the world, [held] counts for
    every thread and mutex the lock calls that have returned and are not yet
    matched by an unlock: the thread holds the mutex while the count is
    positive.  A lock call that would be suspended does not complete in that
    state, and an unlock by a thread that does not hold the mutex is outside
    the contract; neither extends a trace. *)
Inductive mutex_op : Type := Lock | Unlock.

Definition holds (held : gmap (Z * Z) nat) (t m : Z) : nat :=
  default 0%nat (held !! (t, m)).

Definition completed (r : Res Z * World) : option World :=
  match r with
  | (Ok v, w') => if v =? 0 then Some w' else None
  | _ => None
  end.

Definition client_step (st : World * gmap (Z * Z) nat) (c : Z * mutex_op * Z)
  : option (World * gmap (Z * Z) nat) :=
  let '(w, held) := st in
  let '(t, op, m) := c in
  match op with
  | Lock =>
      match completed (as_thread t (pthread_mutex_lock m) w) with
      | Some w' => Some (w', <[(t, m) := S (holds held t m)]> held)
      | None => None
      end
  | Unlock =>
      match holds held t m with
      | O => None
      | S n =>
          match completed (as_thread t (pthread_mutex_unlock m) w) with
          | Some w' => Some (w', <[(t, m) := n]> held)
          | None => None
          end
      end
  end.

Fixpoint client_run (st : World * gmap (Z * Z) nat) (tr : list (Z * mutex_op * Z))
  : option (World * gmap (Z * Z) nat) :=
  match tr with
  | [] => Some st
  | c :: rest =>
      match client_step st c with
      | Some st' => client_run st' rest
      | None => None
      end
  end.

(** Concrete inputs used below. *)

(** An entry function whose result has bit 32 set. *)
Definition oversized_entry : start_fn := fun _ m => (0x100000000, m).

(** An entry function returning its argument. *)
Definition echo_entry : start_fn := fun a m => (a, m).

(** An initializer that copies the word it finds at [src] to [dst]. *)
Definition probe (src dst : Z) : Mem -> Mem :=
  fun m => <[dst := default (-1) (m !! src)]> m.

(** An initializer that increments the word at [p]. *)
Definition bump (p : Z) : Mem -> Mem :=
  fun m => <[p := default 0 (m !! p) + 1]> m.

(** The main thread has initialised mutex 16 and locked it. *)
Definition w_locked : World :=
  snd ((pthread_mutex_init 16 NULL ;; pthread_mutex_lock 16) (boot 0)).

(** The main thread has initialised mutex 16 and condition variable 24,
    locked the mutex and gone to sleep on the condition variable. *)
Definition w_asleep : World :=
  snd ((pthread_mutex_init 16 NULL ;; pthread_cond_init 24 NULL ;;
        pthread_mutex_lock 16 ;; pthread_cond_wait 24 16) (boot 0)).

(** A guard at address 100 that has not been run, and a counter at 300. *)
Definition w_guard : World :=
  with_mem (<[100 := Z.b2z PTHREAD_ONCE_INIT]> (<[300 := 0]> ∅)) (boot 0).

(** Mutex 16 initialised by the main thread, nobody holding it. *)
Definition w_mutex : World := snd (pthread_mutex_init 16 NULL (boot 0)).

(** Thread 1 locks mutex 16 twice and unlocks it twice, then thread 2 locks
    it. *)
Definition handover : list (Z * mutex_op * Z) :=
  [(1, Lock, 16); (1, Lock, 16); (1, Unlock, 16); (1, Unlock, 16); (2, Lock, 16)].

(** The recursion count thread [t] has on critical section [m]. *)
Definition owner_depth (w : World) (m t : Z) : nat :=
  match w_crit w !! m with
  | Some c =>
      match cs_owner c with
      | Some o => if o =? t then cs_depth c else 0%nat
      | None => 0%nat
      end
  | None => 0%nat
  end.

(** The invariant tying the clients' view of mutex [m] to the critical
    section: the section exists, it is owned exactly when its count is
    positive, and a thread's count of outstanding locks is its recursion
    count. *)
Definition mutex_inv (m : Z) (st : World * gmap (Z * Z) nat) : Prop :=
  (exists c, w_crit (fst st) !! m = Some c /\
             (cs_owner c = None <-> cs_depth c = 0%nat)) /\
  (forall t, holds (snd st) t m = owner_depth (fst st) m t).

(** An initializer that itself calls pthread_once on guard [complete], with
    initializer [inner].  pthread_once reads and writes memory only, so the
    nested call is run on the memory the outer initializer is given. *)
Definition reenter (complete : Z) (inner : Mem -> Mem) : Mem -> Mem :=
  fun m => w_mem (snd (pthread_once complete inner (with_mem m (boot 0)))).

(** An entry function returning a pointer with bits set on both sides of
    bit 32. *)
Definition wide_entry : start_fn := fun _ m => (0x1234567890, m).

(** The main thread has initialised mutex 16 and condition variable 24 and
    holds the mutex. *)
Definition w_ready : World :=
  snd ((pthread_mutex_init 16 NULL ;; pthread_cond_init 24 NULL ;;
        pthread_mutex_lock 16) (boot 0)).

(** One thread has been created, its handle stored at address 100; a second
    execution context is still available. *)
Definition w_spawned : World :=
  snd (pthread_create 100 0 echo_entry 0xCAFE (boot 2)).


(** * Properties *)

(** ** Monad and memory equations *)

Lemma bind_ok {S A B : Type} (c : ST S A) (k : A -> ST S B) (s s' : S) (a : A) :
  c s = (Ok a, s') -> bind c k s = k a s'.
Proof. intros H. unfold bind. now rewrite H. Qed.

Lemma store_ok (p v : Z) (w : World) :
  p <> NULL -> store p v w = (Ok tt, with_mem (<[p := v]> (w_mem w)) w).
Proof.
  intros Hp. unfold store.
  destruct (Z.eqb_spec p NULL) as [E | _]; [contradiction | reflexivity].
Qed.

Lemma load_ok (p v : Z) (w : World) :
  p <> NULL -> w_mem w !! p = Some v -> load p w = (Ok v, w).
Proof.
  intros Hp Hv. unfold load.
  destruct (Z.eqb_spec p NULL) as [E | _]; [contradiction |].
  now rewrite Hv.
Qed.

(** ** The thread thunk *)

(** The assertion as compiled holds for every result. *)
Lemma go_assertion_always (res : Z) : go_assertion res = true.
Proof.
  unfold go_assertion.
  destruct (Z.eqb_spec (Z.lor (uintptr res) (Z.b2z (0xFFFFFFFF =? 0xFFFFFFFF))) 0)
    as [E | _]; [| reflexivity].
  apply Z.lor_eq_0_iff in E. destruct E as [_ E]. discriminate E.
Qed.

(** So the thunk never halts the process: it returns the low 32 bits of
    whatever the entry function returned. *)
Lemma go_returns (f : start_fn) (arg : Z) (m : gmap Z Z) :
  go (f, arg) m = (Ok (to_DWORD (fst (f arg m))), snd (f arg m)).
Proof.
  unfold go, bind, rassert, ret. simpl.
  destruct (f arg m) as [r m']. simpl.
  now rewrite go_assertion_always.
Qed.

(** The check in the specification's words does tell the two cases apart. *)
Lemma fits_native_width_spec (res : Z) :
  0 <= res < 2 ^ 64 -> (fits_native_width res = true <-> res < 2 ^ 32).
Proof.
  intros Hr. unfold fits_native_width, uintptr.
  rewrite Z.mod_small by lia.
  change 0xFFFFFFFF with (Z.ones 32).
  rewrite Z.eqb_eq. split.
  - intros E.
    destruct (Z.lt_ge_cases res (2 ^ 32)) as [Hlt | Hge]; [exact Hlt | exfalso].
    assert (Hb : exists n, 32 <= n /\ Z.testbit res n = true).
    { destruct (Z.eq_dec res 0) as [-> | Hnz]; [lia |].
      exists (Z.log2 res). split.
      - apply Z.log2_le_pow2; lia.
      - apply Z.bit_log2. lia. }
    destruct Hb as [n [Hn Hbit]].
    assert (Hf : Z.testbit (Z.lor res (Z.ones 32)) n = Z.testbit (Z.ones 32) n)
      by now rewrite E.
    rewrite Z.lor_spec, Hbit, Z.ones_spec_high in Hf by lia. discriminate Hf.
  - intros Hlt. apply Z.bits_inj'. intros n Hn.
    rewrite Z.lor_spec.
    destruct (Z.lt_ge_cases n 32) as [Hs | Hl].
    + rewrite Z.ones_spec_low by lia. now rewrite orb_true_r.
    + rewrite Z.ones_spec_high by lia. rewrite orb_false_r.
      destruct (Z.eq_dec res 0) as [-> | Hnz]; [apply Z.bits_0 |].
      apply Z.bits_above_log2; [lia |].
      apply Z.lt_le_trans with 32; [| exact Hl].
      apply Z.log2_lt_pow2; lia.
Qed.

(** C1: an entry function returning 0x100000000, a pointer with bit 32 set,
    does not fit the native result width; the thunk nevertheless passes its
    assertion and returns the truncated DWORD 0. *)
Theorem go_truncates_oversized_result :
  fits_native_width 0x100000000 = false /\
  go_assertion 0x100000000 = true /\
  go (oversized_entry, 0) ∅ = (Ok 0, ∅).
Proof. repeat split; reflexivity. Qed.

(** ** Thread creation *)

Lemma fresh_handle_pos (t : gmap Z Thread) : 0 < fresh_handle t.
Proof.
  unfold fresh_handle.
  assert (H : forall l : list Z, 0 <= foldr Z.max 0 l).
  { induction l as [| x l IH]; simpl; lia. }
  specialize (H (fst <$> map_to_list t)). lia.
Qed.

Lemma fresh_handle_above (t : gmap Z Thread) (h : Z) :
  is_Some (t !! h) -> h < fresh_handle t.
Proof.
  intros [th Hth]. unfold fresh_handle.
  apply elem_of_map_to_list in Hth.
  assert (Hin : h ∈ (fst <$> map_to_list t)).
  { apply list_elem_of_fmap. now exists (h, th). }
  revert Hin. generalize (fst <$> map_to_list t).
  induction l as [| x l IH]; intros Hin.
  - inversion Hin.
  - apply elem_of_cons in Hin. simpl. destruct Hin as [-> | Hin].
    + lia.
    + specialize (IH Hin). lia.
Qed.

(** A handle returned by CreateThread names no earlier thread. *)
Lemma fresh_handle_unused (t : gmap Z Thread) : t !! fresh_handle t = None.
Proof.
  destruct (t !! fresh_handle t) eqn:E; [| reflexivity].
  assert (H : fresh_handle t < fresh_handle t) by (apply fresh_handle_above; eauto).
  lia.
Qed.

(** CreateThread returns NULL exactly when the system has no execution
    context left. *)
Lemma CreateThread_null_iff (a s : Z) (start : data_t -> thread_proc)
    (p : data_t) (fl id : Z) (w : World) :
  fst (CreateThread a s start p fl id w) = Ok NULL <-> w_quota w = 0%nat.
Proof.
  unfold CreateThread. destruct (w_quota w) as [| q]; simpl.
  - split; reflexivity.
  - split; [| discriminate].
    intros E. injection E as E.
    pose proof (fresh_handle_pos (w_threads w)). unfold NULL in E. lia.
Qed.

(** The failure path of pthread_create, in full. *)
Lemma pthread_create_failure (thread attr : Z) (f : start_fn) (arg : Z) (w : World) :
  w_quota w = 0%nat ->
  pthread_create thread attr f arg w =
    (Ok EINVAL,
     with_log (w_log w ++ ["CreateThread failed: Not enough memory resources are available to process this command."%string])
              (with_last_error ERROR_NOT_ENOUGH_MEMORY w)).
Proof.
  intros Hq. unfold pthread_create, bind, CreateThread. rewrite Hq. reflexivity.
Qed.

(** The success path of pthread_create, in full. *)
Lemma pthread_create_success (thread attr : Z) (f : start_fn) (arg : Z)
    (w : World) (q : nat) :
  w_quota w = S q ->
  thread <> NULL ->
  pthread_create thread attr f arg w =
    (Ok 0,
     with_mem (<[thread := fresh_handle (w_threads w)]> (w_mem w))
       (with_quota q
          (with_threads
             (<[fresh_handle (w_threads w) := mkThread (go (f, arg)) 0 None]>
                (w_threads w)) w))).
Proof.
  intros Hq Hth. unfold pthread_create, bind, CreateThread. rewrite Hq.
  pose proof (fresh_handle_pos (w_threads w)) as Hpos.
  destruct (Z.eqb_spec (fresh_handle (w_threads w)) NULL) as [E | _].
  - unfold NULL in E. lia.
  - rewrite store_ok by exact Hth. reflexivity.
Qed.

(** The handle output is written only on the success path: a changed caller
    memory means pthread_create returned 0, in every world. *)
Lemma pthread_create_writes_only_on_success (thread attr : Z) (f : start_fn)
    (arg : Z) (w : World) (r : Res Z) (w' : World) :
  pthread_create thread attr f arg w = (r, w') ->
  w_mem w' <> w_mem w -> r = Ok 0.
Proof.
  intros E Hne. destruct (w_quota w) as [| q] eqn:Hq.
  - rewrite pthread_create_failure in E by exact Hq.
    injection E as <- <-. now contradiction Hne.
  - destruct (Z.eq_dec thread NULL) as [-> | Hth].
    + unfold pthread_create, bind, CreateThread in E. rewrite Hq in E.
      pose proof (fresh_handle_pos (w_threads w)) as Hpos.
      destruct (Z.eqb_spec (fresh_handle (w_threads w)) NULL) as [E0 | _].
      * unfold NULL in E0. lia.
      * unfold store in E. simpl in E. injection E as <- <-.
        now contradiction Hne.
    + rewrite (pthread_create_success _ _ _ _ _ q) in E by assumption.
      now injection E as <- _.
Qed.

(** C6: when CreateThread fails (returns a null handle), pthread_create
    returns the nonzero code EINVAL, the thread table is unchanged (no thread
    was started) and the caller's memory, hence the handle output, is left
    unwritten; and in every world, whenever pthread_create has changed the
    caller's memory it has returned 0. *)
Theorem pthread_create_failure_leaves_handle (thread attr : Z) (f : start_fn)
    (arg : Z) (w : World) :
  (fst (CreateThread NULL 0 go (f, arg) 0 NULL w) = Ok NULL ->
   exists w',
     pthread_create thread attr f arg w = (Ok EINVAL, w') /\
     EINVAL <> 0 /\
     w_threads w' = w_threads w /\
     w_mem w' = w_mem w) /\
  (forall r w', pthread_create thread attr f arg w = (r, w') ->
                w_mem w' <> w_mem w -> r = Ok 0).
Proof.
  split.
  - intros Hfail. apply CreateThread_null_iff in Hfail.
    rewrite pthread_create_failure by exact Hfail.
    eexists. split; [reflexivity |]. repeat split. discriminate.
  - intros r w'. apply pthread_create_writes_only_on_success.
Qed.

Lemma pthread_create_failure_leaves_handle_witness :
  exists w',
    pthread_create 100 0 echo_entry 5 (boot 0) = (Ok EINVAL, w') /\
    w_threads w' = w_threads (boot 0) /\
    w_mem w' !! 100 = None.
Proof.
  destruct (proj1 (pthread_create_failure_leaves_handle 100 0 echo_entry 5 (boot 0)))
    as [w' [E [_ [Ht Hm]]]].
  - reflexivity.
  - exists w'. split; [exact E |]. split; [exact Ht |]. now rewrite Hm.
Defined.

(** ** Error paths and the diagnostic log *)

(** pthread_join on a handle that names no thread: the wait fails, EINVAL is
    returned, and nothing is logged. *)
Lemma pthread_join_invalid_handle (other retval : Z) (w : World) :
  w_threads w !! other = None ->
  pthread_join other retval w = (Ok EINVAL, with_last_error ERROR_INVALID_HANDLE w).
Proof.
  intros Hn. unfold pthread_join, bind, WaitForSingleObject. now rewrite Hn.
Qed.

(** pthread_cond_wait when SleepConditionVariableCS fails: EINVAL is
    returned, and nothing is logged. *)
Lemma pthread_cond_wait_failure (cond mutex : Z) (w : World) :
  w_cond w !! cond = None ->
  pthread_cond_wait cond mutex w =
    (Ok EINVAL, with_last_error ERROR_INVALID_PARAMETER w).
Proof.
  intros Hn. unfold pthread_cond_wait, bind, SleepConditionVariableCS.
  now rewrite Hn.
Qed.

(** C3: on a failed wait, pthread_join translates the OS failure into EINVAL
    with the log left empty, and so does pthread_cond_wait on a failed sleep;
    only pthread_create logs the native error description. *)
Theorem join_and_wait_failures_not_logged :
  (fst (WaitForSingleObject 4 INFINITE (boot 1)) = Ok WAIT_FAILED /\
   fst (pthread_join 4 200 (boot 1)) = Ok EINVAL /\
   w_log (snd (pthread_join 4 200 (boot 1))) = []) /\
  (fst (SleepConditionVariableCS 24 16 INFINITE (boot 1)) = Ok false /\
   fst (pthread_cond_wait 24 16 (boot 1)) = Ok EINVAL /\
   w_log (snd (pthread_cond_wait 24 16 (boot 1))) = []) /\
  (fst (pthread_create 100 0 echo_entry 5 (boot 0)) = Ok EINVAL /\
   w_log (snd (pthread_create 100 0 echo_entry 5 (boot 0))) =
     ["CreateThread failed: Not enough memory resources are available to process this command."%string]).
Proof. repeat split; reflexivity. Qed.

(** ** Mutexes, condition variables and attributes *)

(** C7: pthread_mutex_init with a non-null attribute argument fails by
    assertion and initialises nothing; with a null attribute argument it
    initialises the critical section and returns 0. *)
Theorem pthread_mutex_init_attributes (mutex opts : Z) (w : World) :
  pthread_mutex_init mutex opts w =
    if opts =? NULL
    then (Ok 0, with_crit (<[mutex := mkCritSec None 0]> (w_crit w)) w)
    else (Abort "this implementation of pthread_mutex_init does not support attributes", w).
Proof.
  unfold pthread_mutex_init, bind, rassert.
  destruct (opts =? NULL); reflexivity.
Qed.

(** C8, as the specification states it, fails: mutex 16 is held by the main
    thread and pthread_mutex_destroy returns 0 without any complaint, and
    condition variable 24 has a thread asleep on it and pthread_cond_destroy,
    called by another thread, returns 0 as well. *)
Lemma destroy_of_busy_object_succeeds :
  (mutex_held w_locked 16 = true /\
   pthread_mutex_destroy 16 w_locked = (Ok 0, w_locked)) /\
  (cond_has_waiters w_asleep 24 = true /\
   as_thread 2 (pthread_cond_destroy 24) w_asleep = (Ok 0, with_self 2 w_asleep)).
Proof. repeat split; reflexivity. Qed.

(** C8, amended: destroying a mutex or a condition variable always returns 0
    and changes nothing, whatever the state of the object; holders and
    waiters are not looked at. *)
Theorem destroy_is_unconditional (obj : Z) (w : World) :
  pthread_mutex_destroy obj w = (Ok 0, w) /\
  pthread_cond_destroy obj w = (Ok 0, w).
Proof. split; reflexivity. Qed.

(** The stack size a thread is created with. *)
Lemma pthread_create_stack_size (thread attr : Z) (f : start_fn) (arg : Z)
    (w w' : World) (h : Z) (t : Thread) :
  pthread_create thread attr f arg w = (Ok 0, w') ->
  w_threads w !! h = None ->
  w_threads w' !! h = Some t ->
  th_stack t = 0.
Proof.
  intros E Hold Hnew. destruct (w_quota w) as [| q] eqn:Hq.
  - rewrite pthread_create_failure in E by exact Hq. discriminate E.
  - destruct (Z.eq_dec thread NULL) as [-> | Hth].
    + unfold pthread_create, bind, CreateThread in E. rewrite Hq in E.
      destruct (fresh_handle (w_threads w) =? NULL); discriminate E.
    + rewrite (pthread_create_success _ _ _ _ _ q) in E by assumption.
      injection E as <-. simpl in Hnew.
      destruct (Z.eq_dec (fresh_handle (w_threads w)) h) as [<- | Hne].
      * rewrite lookup_insert_eq in Hnew. now injection Hnew as <-.
      * rewrite lookup_insert_ne in Hnew by exact Hne. congruence.
Qed.

(** C10: pthread_attr_init, pthread_attr_setstacksize and
    pthread_attr_destroy return 0 and leave the world as it is, for every
    input; and pthread_create after a pthread_attr_setstacksize behaves as
    pthread_create with any other attribute argument and no such call. *)
Theorem pthread_attr_calls_are_noops (attr size : Z) (w : World) :
  pthread_attr_init attr w = (Ok 0, w) /\
  pthread_attr_setstacksize attr size w = (Ok 0, w) /\
  pthread_attr_destroy attr w = (Ok 0, w) /\
  (forall (thread attr' : Z) (f : start_fn) (arg : Z),
      (pthread_attr_setstacksize attr size ;; pthread_create thread attr f arg) w =
      pthread_create thread attr' f arg w).
Proof. repeat split; reflexivity. Qed.

(** ** One-time initialisation *)

(** On a guard that is not in its initial state pthread_once does nothing. *)
Lemma pthread_once_completed (complete v : Z) (init : Mem -> Mem) (w : World) :
  complete <> NULL ->
  w_mem w !! complete = Some v ->
  v <> 0 ->
  pthread_once complete init w = (Ok 0, w).
Proof.
  intros Hp Hv Hnz. unfold pthread_once, load_bool.
  unfold bind at 1 2. rewrite (load_ok _ _ _ Hp Hv). simpl.
  destruct (Z.eqb_spec v 0) as [E | _]; [contradiction | reflexivity].
Qed.

(** On a guard in its initial state pthread_once first writes the completed
    value and then calls the initializer. *)
Lemma pthread_once_first (complete : Z) (init : Mem -> Mem) (w : World) :
  complete <> NULL ->
  w_mem w !! complete = Some (Z.b2z PTHREAD_ONCE_INIT) ->
  pthread_once complete init w =
    (Ok 0,
     with_mem (init (<[complete := Z.b2z PTHREAD_ONCE_COMPLETED]> (w_mem w))) w).
Proof.
  intros Hp Hv. unfold pthread_once, load_bool.
  unfold bind at 1 2. rewrite (load_ok _ _ _ Hp Hv). simpl.
  unfold bind, store_bool. rewrite store_ok by exact Hp. reflexivity.
Qed.

(** C2, as the specification states it, fails: the initializer [probe 100 200]
    copies the guard it sees while it runs into word 200, and after
    pthread_once on a fresh guard that word holds the completed value. *)
Lemma once_guard_completed_inside_initializer :
  w_mem w_guard !! 100 = Some (Z.b2z PTHREAD_ONCE_INIT) /\
  fst (pthread_once 100 (probe 100 200) w_guard) = Ok 0 /\
  w_mem (snd (pthread_once 100 (probe 100 200) w_guard)) !! 200
    = Some (Z.b2z PTHREAD_ONCE_COMPLETED).
Proof. repeat split; reflexivity. Qed.

(** C2, amended: on a guard that has not been run, pthread_once marks the
    guard completed before it invokes the initializer.  The initializer
    executes on a memory in which the guard already reads completed, and
    when the initializer does not itself write the guard, the guard reads
    completed after it has returned. *)
Theorem pthread_once_marks_before_init (complete : Z) (init : Mem -> Mem)
    (w : World) :
  complete <> NULL ->
  w_mem w !! complete = Some (Z.b2z PTHREAD_ONCE_INIT) ->
  exists m_in : gmap Z Z,
    m_in !! complete = Some (Z.b2z PTHREAD_ONCE_COMPLETED) /\
    pthread_once complete init w = (Ok 0, with_mem (init m_in) w) /\
    (init m_in !! complete = m_in !! complete ->
     w_mem (snd (pthread_once complete init w)) !! complete
       = Some (Z.b2z PTHREAD_ONCE_COMPLETED)).
Proof.
  intros Hp Hv.
  exists (<[complete := Z.b2z PTHREAD_ONCE_COMPLETED]> (w_mem w)).
  rewrite (pthread_once_first _ _ _ Hp Hv). split; [| split].
  - apply lookup_insert_eq.
  - reflexivity.
  - intros Hframe. cbn [snd with_mem w_mem]. rewrite Hframe. apply lookup_insert_eq.
Qed.

Lemma pthread_once_marks_before_init_witness :
  exists m_in : gmap Z Z,
    m_in !! 100 = Some 1 /\
    pthread_once 100 (probe 100 200) w_guard
      = (Ok 0, with_mem (probe 100 200 m_in) w_guard).
Proof.
  destruct (pthread_once_marks_before_init 100 (probe 100 200) w_guard)
    as [m_in [Hin [E _]]].
  - discriminate.
  - reflexivity.
  - exists m_in. split; [exact Hin | exact E].
Defined.

Lemma once_calls_completed (complete v : Z) (inits : list (Mem -> Mem)) (w : World) :
  complete <> NULL ->
  w_mem w !! complete = Some v ->
  v <> 0 ->
  once_calls complete inits w = (Ok (repeat 0 (length inits)), w).
Proof.
  intros Hp Hv Hnz. induction inits as [| init rest IH]; [reflexivity |].
  cbn [once_calls length repeat].
  rewrite (bind_ok _ _ _ _ _ (pthread_once_completed _ _ init _ Hp Hv Hnz)).
  rewrite (bind_ok _ _ _ _ _ IH). reflexivity.
Qed.

(** C5: on a guard that has not been run, with an initializer that leaves the
    guard alone, the first pthread_once call applies the initializer once
    and leaves the guard completed; any later call, with whatever
    initializer, returns 0 and changes nothing; and a whole sequence of
    calls returns 0 every time and has the effect of the first call alone. *)
Theorem pthread_once_runs_initializer_once (complete : Z) (init : Mem -> Mem)
    (later : list (Mem -> Mem)) (w : World) :
  complete <> NULL ->
  w_mem w !! complete = Some (Z.b2z PTHREAD_ONCE_INIT) ->
  (forall m : gmap Z Z, init m !! complete = m !! complete) ->
  exists w1,
    w1 = with_mem (init (<[complete := Z.b2z PTHREAD_ONCE_COMPLETED]> (w_mem w))) w /\
    pthread_once complete init w = (Ok 0, w1) /\
    w_mem w1 !! complete = Some (Z.b2z PTHREAD_ONCE_COMPLETED) /\
    (forall init', pthread_once complete init' w1 = (Ok 0, w1)) /\
    once_calls complete (init :: later) w = (Ok (repeat 0 (S (length later))), w1).
Proof.
  intros Hp Hv Hframe. eexists. split; [reflexivity |].
  pose proof (pthread_once_first _ init _ Hp Hv) as Hfirst.
  assert (Hdone :
    w_mem (with_mem (init (<[complete := Z.b2z PTHREAD_ONCE_COMPLETED]> (w_mem w))) w)
      !! complete = Some 1).
  { cbn [with_mem w_mem]. rewrite Hframe. apply lookup_insert_eq. }
  split; [exact Hfirst |]. split; [exact Hdone |]. split.
  - intros init'. now apply (pthread_once_completed _ 1).
  - cbn [once_calls]. rewrite (bind_ok _ _ _ _ _ Hfirst).
    rewrite (bind_ok _ _ _ _ _
               (once_calls_completed _ 1 later _ Hp Hdone ltac:(discriminate))).
    reflexivity.
Qed.

Lemma pthread_once_runs_initializer_once_witness :
  exists w1,
    once_calls 100 [bump 300; bump 300; bump 300] w_guard = (Ok [0; 0; 0], w1) /\
    w_mem w1 !! 300 = Some 1 /\
    w_mem w1 !! 100 = Some 1.
Proof.
  destruct (pthread_once_runs_initializer_once 100 (bump 300)
              [bump 300; bump 300] w_guard)
    as [w1 [Hw1 [_ [Hdone [_ Hall]]]]].
  - discriminate.
  - reflexivity.
  - intros m. unfold bump. apply lookup_insert_ne. discriminate.
  - exists w1. split; [exact Hall |]. split; [| exact Hdone].
    rewrite Hw1. reflexivity.
Defined.

(** ** Joining a thread *)

(** A value of the native result width survives the cast to DWORD in the
    thunk; the cast back to a pointer in pthread_join is a zero extension and
    changes nothing. *)
Lemma to_DWORD_small (V : Z) : 0 <= V < 2 ^ 32 -> to_DWORD V = V.
Proof. intros H. unfold to_DWORD. now apply Z.mod_small. Qed.

(** The scheduler running a thread that pthread_create started. *)
Lemma run_thread_go (h : Z) (t : Thread) (f : start_fn) (arg : Z) (w : World) :
  w_threads w !! h = Some t ->
  th_exit t = None ->
  th_proc t = go (f, arg) ->
  run_thread h w =
    (Ok tt,
     with_threads
       (<[h := mkThread (th_proc t) (th_stack t)
                        (Some (to_DWORD (fst (f arg (w_mem w)))))]> (w_threads w))
       (with_mem (snd (f arg (w_mem w))) w)).
Proof.
  intros Ht He Hp. unfold run_thread. rewrite Ht, He, Hp, go_returns.
  reflexivity.
Qed.

(** pthread_join on a thread that has exited, in any world. *)
Lemma pthread_join_exited (other retval code : Z) (t : Thread) (w : World) :
  w_threads w !! other = Some t ->
  th_exit t = Some code ->
  retval <> NULL ->
  pthread_join other retval w = (Ok 0, with_mem (<[retval := code]> (w_mem w)) w).
Proof.
  intros Ht He Hr.
  unfold pthread_join, bind, WaitForSingleObject, GetExitCodeThread.
  rewrite Ht, He. simpl.
  destruct (Z.eqb_spec retval NULL) as [E | _]; [contradiction |].
  simpl. rewrite Ht, He. simpl.
  rewrite store_ok by exact Hr. reflexivity.
Qed.

(** pthread_join on a thread that is still running is suspended. *)
Lemma pthread_join_running (other retval : Z) (t : Thread) (w : World) :
  w_threads w !! other = Some t ->
  th_exit t = None ->
  pthread_join other retval w = (Blocked, w).
Proof.
  intros Ht He. unfold pthread_join, bind, WaitForSingleObject.
  now rewrite Ht, He.
Qed.

(** C4: pthread_create has succeeded and stored handle [h]; the entry
    function returns a value [V] of the native 32-bit width when the thread
    runs; then pthread_join on [h] succeeds and stores exactly [V] through the
    caller's result pointer. *)
Theorem join_yields_thread_result (thread attr : Z) (f : start_fn)
    (arg retval V h : Z) (w w1 : World) (m' : gmap Z Z) :
  pthread_create thread attr f arg w = (Ok 0, w1) ->
  w_mem w1 !! thread = Some h ->
  f arg (w_mem w1) = (V, m') ->
  0 <= V < 2 ^ 32 ->
  retval <> NULL ->
  exists w2 w3,
    run_thread h w1 = (Ok tt, w2) /\
    pthread_join h retval w2 = (Ok 0, w3) /\
    w_mem w3 !! retval = Some V.
Proof.
  intros Hc Hh Hf HV Hr.
  destruct (w_quota w) as [| q] eqn:Hq.
  { rewrite pthread_create_failure in Hc by exact Hq. discriminate Hc. }
  destruct (Z.eq_dec thread NULL) as [-> | Hth].
  { unfold pthread_create, bind, CreateThread in Hc. rewrite Hq in Hc.
    destruct (fresh_handle (w_threads w) =? NULL); discriminate Hc. }
  rewrite (pthread_create_success _ _ _ _ _ q) in Hc by assumption.
  injection Hc as <-.
  cbn [with_mem w_mem] in Hh, Hf. rewrite lookup_insert_eq in Hh.
  injection Hh as <-.
  set (h := fresh_handle (w_threads w)) in *.
  set (t := mkThread (go (f, arg)) 0 None).
  set (w1 := with_mem _ _).
  assert (Ht : w_threads w1 !! h = Some t) by apply lookup_insert_eq.
  pose proof (run_thread_go h t f arg w1 Ht eq_refl eq_refl) as Hrun.
  assert (Hm : w_mem w1 = <[thread := h]> (w_mem w)) by reflexivity.
  rewrite Hm, Hf in Hrun. cbn [fst snd th_proc th_stack t] in Hrun.
  rewrite (to_DWORD_small V HV) in Hrun.
  eexists. eexists. split; [exact Hrun |].
  split.
  - apply (pthread_join_exited h retval V (mkThread (go (f, arg)) 0 (Some V))).
    + apply lookup_insert_eq.
    + reflexivity.
    + exact Hr.
  - apply lookup_insert_eq.
Qed.

Lemma join_yields_thread_result_witness :
  exists w1 w2 w3,
    pthread_create 100 0 echo_entry 0xCAFE (boot 1) = (Ok 0, w1) /\
    run_thread 1 w1 = (Ok tt, w2) /\
    pthread_join 1 200 w2 = (Ok 0, w3) /\
    w_mem w3 !! 200 = Some 0xCAFE.
Proof.
  exists (snd (pthread_create 100 0 echo_entry 0xCAFE (boot 1))).
  destruct (join_yields_thread_result 100 0 echo_entry 0xCAFE 200 0xCAFE 1 (boot 1)
              (snd (pthread_create 100 0 echo_entry 0xCAFE (boot 1)))
              (w_mem (snd (pthread_create 100 0 echo_entry 0xCAFE (boot 1)))))
    as [w2 [w3 [Hrun [Hjoin Hval]]]].
  - reflexivity.
  - reflexivity.
  - reflexivity.
  - lia.
  - discriminate.
  - exists w2, w3. split; [reflexivity |]. split; [exact Hrun |].
    split; [exact Hjoin | exact Hval].
Defined.

(** ** Mutual exclusion *)

Lemma holds_insert_eq (held : gmap (Z * Z) nat) (t m : Z) (n : nat) :
  holds (<[(t, m) := n]> held) t m = n.
Proof. unfold holds. now rewrite lookup_insert_eq. Qed.

Lemma holds_insert_ne (held : gmap (Z * Z) nat) (t m t' m' : Z) (n : nat) :
  (t, m) <> (t', m') ->
  holds (<[(t, m) := n]> held) t' m' = holds held t' m'.
Proof. intros Hne. unfold holds. now rewrite lookup_insert_ne. Qed.

Lemma completed_inv (r : Res Z * World) (w' : World) :
  completed r = Some w' -> r = (Ok 0, w').
Proof.
  destruct r as [[v | msg |] w1]; simpl; try discriminate.
  destruct (Z.eqb_spec v 0) as [-> | _]; [| discriminate].
  now intros [= ->].
Qed.

(** A lock call that completes has entered the critical section. *)
Lemma lock_completed (t m : Z) (w w' : World) :
  completed (as_thread t (pthread_mutex_lock m) w) = Some w' ->
  exists c,
    w_crit w !! m = Some c /\
    ((cs_owner c = None /\
      w_crit w' = <[m := mkCritSec (Some t) 1]> (w_crit w)) \/
     (cs_owner c = Some t /\
      w_crit w' = <[m := mkCritSec (Some t) (S (cs_depth c))]> (w_crit w))).
Proof.
  intros H. apply completed_inv in H.
  unfold as_thread, pthread_mutex_lock, bind, EnterCriticalSection in H.
  cbn [with_self w_crit w_self] in H.
  destruct (w_crit w !! m) as [c |] eqn:Hc; [| discriminate H].
  exists c. split; [reflexivity |].
  destruct (cs_owner c) as [o |] eqn:Ho.
  - destruct (Z.eqb_spec o t) as [-> | Hne]; [| discriminate H].
    right. split; [reflexivity |]. now injection H as <-.
  - left. split; [reflexivity |]. now injection H as <-.
Qed.

(** An unlock call that completes has left the critical section. *)
Lemma unlock_completed (t m : Z) (w w' : World) :
  completed (as_thread t (pthread_mutex_unlock m) w) = Some w' ->
  exists c,
    w_crit w !! m = Some c /\
    ((cs_depth c = 1%nat /\
      w_crit w' = <[m := mkCritSec None 0]> (w_crit w)) \/
     (exists n, cs_depth c = S (S n) /\
      w_crit w' = <[m := mkCritSec (cs_owner c) (S n)]> (w_crit w))).
Proof.
  intros H. apply completed_inv in H.
  unfold as_thread, pthread_mutex_unlock, bind, LeaveCriticalSection in H.
  cbn [with_self w_crit w_self] in H.
  destruct (w_crit w !! m) as [c |] eqn:Hc; [| discriminate H].
  exists c. split; [reflexivity |].
  destruct (cs_depth c) as [| [| n]] eqn:Hd; [discriminate H | |].
  - left. split; [reflexivity |]. now injection H as <-.
  - right. exists n. split; [reflexivity |]. now injection H as <-.
Qed.

Lemma owner_depth_other (w w' : World) (m m0 : Z) (c : CritSec) (t : Z) :
  m0 <> m ->
  w_crit w' = <[m0 := c]> (w_crit w) ->
  owner_depth w' m t = owner_depth w m t.
Proof.
  intros Hne E. unfold owner_depth. now rewrite E, lookup_insert_ne.
Qed.

Lemma owner_depth_same (w' : World) (crit : gmap Z CritSec) (m : Z) (c : CritSec) (t : Z) :
  w_crit w' = <[m := c]> crit ->
  owner_depth w' m t =
    match cs_owner c with
    | Some o => if o =? t then cs_depth c else 0%nat
    | None => 0%nat
    end.
Proof.
  intros E. unfold owner_depth. now rewrite E, lookup_insert_eq.
Qed.

(** Every completed call preserves the invariant. *)
Lemma client_step_inv (m : Z) (st st' : World * gmap (Z * Z) nat)
    (c : Z * mutex_op * Z) :
  mutex_inv m st -> client_step st c = Some st' -> mutex_inv m st'.
Proof.
  destruct st as [w held]. destruct c as [[t op] m0].
  intros [[cs [Hcs Hwf]] Hcount] Hstep. cbn [fst snd] in *.
  unfold client_step in Hstep.
  destruct op.
  - (* a lock by thread t on m0 *)
    destruct (completed _) as [w' |] eqn:Hdone; [| discriminate Hstep].
    injection Hstep as <-.
    apply lock_completed in Hdone. destruct Hdone as [c0 [Hc0 Hcase]].
    destruct (Z.eq_dec m0 m) as [-> | Hne].
    + rewrite Hcs in Hc0. injection Hc0 as <-.
      unfold mutex_inv. cbn [fst snd].
      destruct Hcase as [[Ho E] | [Ho E]].
      * split.
        { exists (mkCritSec (Some t) 1). rewrite E, lookup_insert_eq.
          split; [reflexivity |]. simpl. split; discriminate. }
        intros t'. rewrite (owner_depth_same _ _ _ _ _ E). simpl.
        destruct (Z.eqb_spec t t') as [<- | Hd].
        { rewrite holds_insert_eq, Hcount. unfold owner_depth.
          now rewrite Hcs, Ho. }
        { rewrite holds_insert_ne by congruence. rewrite Hcount.
          unfold owner_depth. now rewrite Hcs, Ho. }
      * split.
        { exists (mkCritSec (Some t) (S (cs_depth cs))).
          rewrite E, lookup_insert_eq.
          split; [reflexivity |]. simpl. split; discriminate. }
        intros t'. rewrite (owner_depth_same _ _ _ _ _ E). simpl.
        destruct (Z.eqb_spec t t') as [<- | Hd].
        { rewrite holds_insert_eq, Hcount. unfold owner_depth.
          now rewrite Hcs, Ho, Z.eqb_refl. }
        { rewrite holds_insert_ne by congruence. rewrite Hcount.
          unfold owner_depth. rewrite Hcs, Ho.
          destruct (Z.eqb_spec t t'); [contradiction | reflexivity]. }
    + assert (Hcrit : exists c1, w_crit w' = <[m0 := c1]> (w_crit w))
        by (destruct Hcase as [[_ E] | [_ E]]; eauto).
      destruct Hcrit as [c1 E].
      unfold mutex_inv. cbn [fst snd]. split.
      * exists cs. rewrite E, lookup_insert_ne by exact Hne. now split.
      * intros t'. rewrite holds_insert_ne by congruence.
        rewrite (owner_depth_other w w' m m0 c1 t' Hne E). apply Hcount.
  - (* an unlock by thread t on m0 *)
    destruct (holds held t m0) as [| n] eqn:Hn; [discriminate Hstep |].
    destruct (completed _) as [w' |] eqn:Hdone; [| discriminate Hstep].
    injection Hstep as <-.
    apply unlock_completed in Hdone. destruct Hdone as [c0 [Hc0 Hcase]].
    destruct (Z.eq_dec m0 m) as [-> | Hne].
    + rewrite Hcs in Hc0. injection Hc0 as <-.
      assert (Hown : cs_owner cs = Some t /\ cs_depth cs = S n).
      { specialize (Hcount t). rewrite Hn in Hcount.
        unfold owner_depth in Hcount. rewrite Hcs in Hcount.
        destruct (cs_owner cs) as [o |]; [| discriminate Hcount].
        destruct (Z.eqb_spec o t) as [-> | _]; [| discriminate Hcount].
        now split. }
      destruct Hown as [Ho Hd].
      unfold mutex_inv. cbn [fst snd].
      destruct Hcase as [[Hd1 E] | [k [Hdk E]]].
      * assert (n = 0%nat) by congruence. subst n. split.
        { exists (mkCritSec None 0). rewrite E, lookup_insert_eq.
          split; [reflexivity |]. simpl. now split. }
        intros t'. rewrite (owner_depth_same _ _ _ _ _ E). simpl.
        destruct (Z.eq_dec t t') as [<- | Hdiff].
        { apply holds_insert_eq. }
        { rewrite holds_insert_ne by congruence. rewrite Hcount.
          unfold owner_depth. rewrite Hcs, Ho.
          destruct (Z.eqb_spec t t'); [contradiction | reflexivity]. }
      * assert (n = S k) by congruence. subst n. split.
        { exists (mkCritSec (cs_owner cs) (S k)). rewrite E, lookup_insert_eq.
          split; [reflexivity |]. simpl. rewrite Ho. split; discriminate. }
        intros t'. rewrite (owner_depth_same _ _ _ _ _ E). simpl. rewrite Ho.
        destruct (Z.eqb_spec t t') as [<- | Hdiff].
        { apply holds_insert_eq. }
        { rewrite holds_insert_ne by congruence. rewrite Hcount.
          unfold owner_depth. rewrite Hcs, Ho.
          destruct (Z.eqb_spec t t'); [contradiction | reflexivity]. }
    + assert (Hcrit : exists c1, w_crit w' = <[m0 := c1]> (w_crit w)).
      { destruct Hcase as [[_ E] | [k [_ E]]]; eauto. }
      destruct Hcrit as [c1 E].
      unfold mutex_inv. cbn [fst snd]. split.
      * exists cs. rewrite E, lookup_insert_ne by exact Hne. now split.
      * intros t'. rewrite holds_insert_ne by congruence.
        rewrite (owner_depth_other w w' m m0 c1 t' Hne E). apply Hcount.
Qed.

Lemma client_run_inv (m : Z) (tr : list (Z * mutex_op * Z))
    (st st' : World * gmap (Z * Z) nat) :
  mutex_inv m st -> client_run st tr = Some st' -> mutex_inv m st'.
Proof.
  revert st. induction tr as [| c rest IH]; intros st Hinv Hrun.
  - simpl in Hrun. now injection Hrun as <-.
  - simpl in Hrun. destruct (client_step st c) as [st1 |] eqn:Hstep.
    + apply (IH st1); [| exact Hrun]. exact (client_step_inv m st st1 c Hinv Hstep).
    + discriminate Hrun.
Qed.

(** Under the invariant two different threads cannot both hold the mutex. *)
Lemma mutex_inv_exclusive (m : Z) (st : World * gmap (Z * Z) nat) (t1 t2 : Z) :
  mutex_inv m st -> t1 <> t2 ->
  ~ (0 < holds (snd st) t1 m /\ 0 < holds (snd st) t2 m)%nat.
Proof.
  intros [[cs [Hcs _]] Hcount] Hne [H1 H2].
  rewrite Hcount in H1, H2. unfold owner_depth in H1, H2.
  rewrite Hcs in H1, H2.
  destruct (cs_owner cs) as [o |]; [| lia].
  destruct (Z.eqb_spec o t1) as [E1 | _]; [| lia].
  destruct (Z.eqb_spec o t2) as [E2 | _]; [| lia].
  congruence.
Qed.

(** C9: the mutex [m] has been initialised and nobody holds it; after any
    sequence of completed pthread_mutex_lock and pthread_mutex_unlock calls by
    any threads, two distinct threads never both hold [m]. *)
Theorem mutex_mutual_exclusion (m : Z) (w0 w : World)
    (tr : list (Z * mutex_op * Z)) (held : gmap (Z * Z) nat) (t1 t2 : Z) :
  w_crit w0 !! m = Some (mkCritSec None 0) ->
  client_run (w0, ∅) tr = Some (w, held) ->
  t1 <> t2 ->
  ~ (0 < holds held t1 m /\ 0 < holds held t2 m)%nat.
Proof.
  intros Hfree Hrun Hne.
  apply (mutex_inv_exclusive m (w, held) t1 t2); [| exact Hne].
  apply (client_run_inv m tr (w0, ∅)); [| exact Hrun].
  split.
  - exists (mkCritSec None 0). split; [exact Hfree |]. now split.
  - intros t. unfold holds, owner_depth. cbn [fst snd].
    now rewrite lookup_empty, Hfree.
Qed.

Lemma mutex_mutual_exclusion_witness :
  match client_run (w_mutex, ∅) handover with
  | Some (w, held) =>
      holds held 2 16 = 1%nat /\
      ~ (0 < holds held 1 16 /\ 0 < holds held 2 16)%nat
  | None => False
  end.
Proof.
  destruct (client_run (w_mutex, ∅) handover) as [[w held] |] eqn:Hrun.
  - split.
    + vm_compute in Hrun. injection Hrun as _ <-. reflexivity.
    + apply (mutex_mutual_exclusion 16 w_mutex w handover held 1 2).
      * reflexivity.
      * exact Hrun.
      * discriminate.
  - vm_compute in Hrun. discriminate Hrun.
Defined.

(** While thread 1 holds the mutex a lock call by thread 2 does not
    complete. *)
Example lock_while_held_is_suspended :
  fst (as_thread 2 (pthread_mutex_lock 16) (with_self 1 w_locked)) = Blocked /\
  client_run (w_mutex, ∅) [(1, Lock, 16); (2, Lock, 16)] = None.
Proof. split; reflexivity. Qed.

(** * Further properties of the shim *)

(** ** Threads *)

(** What a successful pthread_create tells about the world it started in. *)
Lemma pthread_create_ok_inv (thread attr : Z) (f : start_fn) (arg : Z)
    (w w1 : World) :
  pthread_create thread attr f arg w = (Ok 0, w1) ->
  exists q, w_quota w = S q /\ thread <> NULL.
Proof.
  intros Hc. destruct (w_quota w) as [| q] eqn:Hq.
  - rewrite pthread_create_failure in Hc by exact Hq. discriminate Hc.
  - exists q. split; [reflexivity |]. intros ->.
    unfold pthread_create, bind, CreateThread in Hc. rewrite Hq in Hc.
    destruct (fresh_handle (w_threads w) =? NULL); discriminate Hc.
Qed.

(** X1: whatever pointer the entry function returns, pthread_join after the
    thread has run stores its low 32 bits, zero-extended, through the result
    pointer. *)
Theorem join_stores_low_32_bits (thread attr : Z) (f : start_fn)
    (arg retval V h : Z) (w w1 : World) (m' : gmap Z Z) :
  pthread_create thread attr f arg w = (Ok 0, w1) ->
  w_mem w1 !! thread = Some h ->
  f arg (w_mem w1) = (V, m') ->
  retval <> NULL ->
  exists w2 w3,
    run_thread h w1 = (Ok tt, w2) /\
    pthread_join h retval w2 = (Ok 0, w3) /\
    w_mem w3 !! retval = Some (V mod 2 ^ 32).
Proof.
  intros Hc Hh Hf Hr.
  destruct (pthread_create_ok_inv _ _ _ _ _ _ Hc) as [q [Hq Hth]].
  rewrite (pthread_create_success _ _ _ _ _ q) in Hc by assumption.
  injection Hc as <-.
  cbn [with_mem w_mem] in Hh, Hf. rewrite lookup_insert_eq in Hh.
  injection Hh as <-.
  set (h := fresh_handle (w_threads w)) in *.
  set (t := mkThread (go (f, arg)) 0 None).
  set (w1 := with_mem _ _).
  assert (Ht : w_threads w1 !! h = Some t) by apply lookup_insert_eq.
  pose proof (run_thread_go h t f arg w1 Ht eq_refl eq_refl) as Hrun.
  assert (Hm : w_mem w1 = <[thread := h]> (w_mem w)) by reflexivity.
  rewrite Hm, Hf in Hrun. cbn [fst snd th_proc th_stack t] in Hrun.
  eexists. eexists. split; [exact Hrun |].
  split.
  - apply (pthread_join_exited h retval (to_DWORD V)
             (mkThread (go (f, arg)) 0 (Some (to_DWORD V)))).
    + apply lookup_insert_eq.
    + reflexivity.
    + exact Hr.
  - apply lookup_insert_eq.
Qed.

Lemma join_stores_low_32_bits_witness :
  exists w2 w3,
    run_thread 1 (snd (pthread_create 100 0 wide_entry 0 (boot 1))) = (Ok tt, w2) /\
    pthread_join 1 200 w2 = (Ok 0, w3) /\
    w_mem w3 !! 200 = Some 0x34567890.
Proof.
  destruct (join_stores_low_32_bits 100 0 wide_entry 0 200 0x1234567890 1 (boot 1)
              (snd (pthread_create 100 0 wide_entry 0 (boot 1)))
              (w_mem (snd (pthread_create 100 0 wide_entry 0 (boot 1)))))
    as [w2 [w3 [Hrun [Hjoin Hval]]]].
  - reflexivity.
  - reflexivity.
  - reflexivity.
  - discriminate.
  - exists w2, w3. split; [exact Hrun |]. split; [exact Hjoin | exact Hval].
Defined.

(** X2: pthread_join leaves the thread table, the log and every memory word
    other than the result word as they were, whatever its outcome: the
    joined thread's handle is not released and nothing is logged. *)
Theorem pthread_join_frame (other retval : Z) (w : World) :
  w_threads (snd (pthread_join other retval w)) = w_threads w /\
  w_log (snd (pthread_join other retval w)) = w_log w /\
  (forall p, p <> retval ->
             w_mem (snd (pthread_join other retval w)) !! p = w_mem w !! p).
Proof.
  unfold pthread_join, bind, WaitForSingleObject, GetExitCodeThread.
  destruct (w_threads w !! other) as [t |] eqn:Ht.
  - destruct (th_exit t) as [code |] eqn:He; simpl.
    + destruct (Z.eqb_spec retval NULL) as [E | Hr]; simpl.
      * repeat split.
      * rewrite Ht, He. simpl. unfold store.
        destruct (Z.eqb_spec retval NULL) as [E | _]; [contradiction |].
        simpl. repeat split. intros p Hp. now apply lookup_insert_ne.
    + repeat split.
  - simpl. repeat split.
Qed.

Lemma pthread_join_frame_witness :
  w_threads (snd (pthread_join 1 200 (snd (run_thread 1 w_spawned))))
    = w_threads (snd (run_thread 1 w_spawned)) /\
  w_mem (snd (pthread_join 1 200 (snd (run_thread 1 w_spawned)))) !! 100 = Some 1.
Proof.
  destruct (pthread_join_frame 1 200 (snd (run_thread 1 w_spawned)))
    as [Ht [_ Hm]].
  split; [exact Ht |]. rewrite (Hm 100); [reflexivity | discriminate].
Defined.

(** X3: a join that has succeeded can be repeated: the second pthread_join
    on the same handle succeeds again and changes nothing. *)
Theorem pthread_join_repeatable (other retval : Z) (w w1 : World) :
  pthread_join other retval w = (Ok 0, w1) ->
  pthread_join other retval w1 = (Ok 0, w1).
Proof.
  intros Hj.
  destruct (w_threads w !! other) as [t |] eqn:Ht.
  - destruct (th_exit t) as [code |] eqn:He.
    + destruct (Z.eq_dec retval NULL) as [-> | Hr].
      * assert (E : pthread_join other NULL w = (Ok 0, w)).
        { unfold pthread_join, bind, WaitForSingleObject. now rewrite Ht, He. }
        rewrite E in Hj. injection Hj as <-. exact E.
      * rewrite (pthread_join_exited _ _ code t _ Ht He Hr) in Hj.
        injection Hj as <-.
        rewrite (pthread_join_exited other retval code t) by assumption.
        cbn [with_mem w_mem w_threads w_quota w_last_error w_log w_crit
             w_cond w_self].
        now rewrite insert_insert_eq.
    + rewrite (pthread_join_running _ _ t _ Ht He) in Hj. discriminate Hj.
  - rewrite pthread_join_invalid_handle in Hj by exact Ht. discriminate Hj.
Qed.

Lemma pthread_join_repeatable_witness :
  exists w1,
    pthread_join 1 200 (snd (run_thread 1 w_spawned)) = (Ok 0, w1) /\
    pthread_join 1 200 w1 = (Ok 0, w1) /\
    w_mem w1 !! 200 = Some 0xCAFE.
Proof.
  exists (snd (pthread_join 1 200 (snd (run_thread 1 w_spawned)))).
  split; [reflexivity |]. split; [| reflexivity].
  apply (pthread_join_repeatable 1 200 (snd (run_thread 1 w_spawned))).
  reflexivity.
Defined.

(** X4: pthread_create appends to the log exactly when it returns EINVAL,
    and then it appends one entry; on every other outcome the log is
    untouched. *)
Theorem pthread_create_logs_iff_failure (thread attr : Z) (f : start_fn)
    (arg : Z) (w : World) :
  (fst (pthread_create thread attr f arg w) = Ok EINVAL ->
   exists entry,
     w_log (snd (pthread_create thread attr f arg w)) = w_log w ++ [entry]) /\
  (fst (pthread_create thread attr f arg w) <> Ok EINVAL ->
   w_log (snd (pthread_create thread attr f arg w)) = w_log w).
Proof.
  destruct (w_quota w) as [| q] eqn:Hq.
  - rewrite pthread_create_failure by exact Hq. split.
    + intros _. eexists. reflexivity.
    + intros Hne. now contradiction Hne.
  - assert (Hlog : w_log (snd (pthread_create thread attr f arg w)) = w_log w /\
                   fst (pthread_create thread attr f arg w) <> Ok EINVAL).
    { destruct (Z.eq_dec thread NULL) as [-> | Hth].
      - unfold pthread_create, bind, CreateThread. rewrite Hq.
        pose proof (fresh_handle_pos (w_threads w)) as Hpos.
        destruct (Z.eqb_spec (fresh_handle (w_threads w)) NULL) as [E0 | _].
        + unfold NULL in E0. lia.
        + unfold store. simpl. split; [reflexivity | discriminate].
      - rewrite (pthread_create_success _ _ _ _ _ q) by assumption.
        split; [reflexivity | discriminate]. }
    destruct Hlog as [Hlog Hne]. split.
    + intros E. now contradiction Hne.
    + intros _. exact Hlog.
Qed.

Lemma pthread_create_logs_iff_failure_witness :
  (exists entry,
     w_log (snd (pthread_create 100 0 echo_entry 5 (boot 0))) = [] ++ [entry]) /\
  w_log (snd (pthread_create 100 0 echo_entry 5 (boot 1))) = [].
Proof.
  split.
  - apply (proj1 (pthread_create_logs_iff_failure 100 0 echo_entry 5 (boot 0))).
    reflexivity.
  - apply (proj2 (pthread_create_logs_iff_failure 100 0 echo_entry 5 (boot 1))).
    discriminate.
Defined.



(** X6: two pthread_create calls that both succeed, writing to different
    handle words, produce different handles. *)
Theorem pthread_create_distinct_handles (th1 th2 a1 a2 : Z) (f1 f2 : start_fn)
    (arg1 arg2 h1 h2 : Z) (w w1 w2 : World) :
  pthread_create th1 a1 f1 arg1 w = (Ok 0, w1) ->
  pthread_create th2 a2 f2 arg2 w1 = (Ok 0, w2) ->
  th1 <> th2 ->
  w_mem w2 !! th1 = Some h1 ->
  w_mem w2 !! th2 = Some h2 ->
  h1 <> h2.
Proof.
  intros Hc1 Hc2 Hne H1 H2.
  destruct (pthread_create_ok_inv _ _ _ _ _ _ Hc1) as [q1 [Hq1 Ht1]].
  destruct (pthread_create_ok_inv _ _ _ _ _ _ Hc2) as [q2 [Hq2 Ht2]].
  rewrite (pthread_create_success _ _ _ _ _ q1) in Hc1 by assumption.
  injection Hc1 as <-.
  rewrite (pthread_create_success _ _ _ _ _ q2) in Hc2 by assumption.
  injection Hc2 as <-.
  cbn [with_mem with_quota with_threads w_mem w_threads] in H1, H2.
  rewrite lookup_insert_eq in H2. injection H2 as <-.
  rewrite lookup_insert_ne in H1 by congruence.
  rewrite lookup_insert_eq in H1. injection H1 as <-.
  intros E.
  pose proof (fresh_handle_unused
                (<[fresh_handle (w_threads w) := mkThread (go (f1, arg1)) 0 None]>
                   (w_threads w))) as Hfresh.
  rewrite <- E, lookup_insert_eq in Hfresh. discriminate Hfresh.
Qed.

Lemma pthread_create_distinct_handles_witness :
  w_mem (snd (pthread_create 108 0 echo_entry 7 w_spawned)) !! 100 = Some 1 /\
  w_mem (snd (pthread_create 108 0 echo_entry 7 w_spawned)) !! 108 = Some 2 /\
  1 <> 2.
Proof.
  split; [reflexivity |]. split; [reflexivity |].
  apply (pthread_create_distinct_handles 100 108 0 0 echo_entry echo_entry
           0xCAFE 7 1 2 (boot 2) w_spawned
           (snd (pthread_create 108 0 echo_entry 7 w_spawned)));
    first [reflexivity | discriminate].
Defined.

(** ** Mutexes *)

Lemma crit_sec_eta (c : CritSec) (o : option Z) (d : nat) :
  cs_owner c = o -> cs_depth c = d -> mkCritSec o d = c.
Proof. destruct c. simpl. now intros -> ->. Qed.

(** X7: on a mutex that is free, or that the calling thread already holds,
    pthread_mutex_lock followed by pthread_mutex_unlock both return 0 and
    leave every critical section as it was. *)
Theorem lock_unlock_round_trip (mutex t : Z) (c : CritSec) (w : World) :
  w_crit w !! mutex = Some c ->
  (cs_owner c = None /\ cs_depth c = 0%nat) \/
  (cs_owner c = Some t /\ (0 < cs_depth c)%nat) ->
  exists w1 w2,
    as_thread t (pthread_mutex_lock mutex) w = (Ok 0, w1) /\
    as_thread t (pthread_mutex_unlock mutex) w1 = (Ok 0, w2) /\
    w_crit w2 = w_crit w.
Proof.
  intros Hc Hstate.
  unfold as_thread, pthread_mutex_lock, pthread_mutex_unlock, bind,
    EnterCriticalSection, LeaveCriticalSection.
  cbn [with_self w_crit w_self]. rewrite Hc.
  destruct Hstate as [[Ho Hd] | [Ho Hd]]; rewrite Ho.
  - eexists. eexists. split; [reflexivity |].
    cbn [with_self with_crit w_crit w_self ret]. rewrite lookup_insert_eq.
    cbn [cs_depth]. split; [reflexivity |].
    cbn [with_crit w_crit]. rewrite insert_insert_eq.
    apply insert_id. rewrite Hc. f_equal. symmetry. now apply crit_sec_eta.
  - rewrite Z.eqb_refl.
    destruct (cs_depth c) as [| d] eqn:Hd'; [lia |].
    eexists. eexists. split; [reflexivity |].
    cbn [with_self with_crit w_crit w_self ret]. rewrite lookup_insert_eq.
    cbn [cs_depth cs_owner].
    split; [reflexivity |].
    cbn [with_crit w_crit]. rewrite insert_insert_eq.
    apply insert_id. rewrite Hc. f_equal. symmetry. now apply crit_sec_eta.
Qed.

Lemma lock_unlock_round_trip_witness :
  exists w1 w2,
    as_thread 1 (pthread_mutex_lock 16) w_locked = (Ok 0, w1) /\
    as_thread 1 (pthread_mutex_unlock 16) w1 = (Ok 0, w2) /\
    w_crit w2 = w_crit w_locked.
Proof.
  apply (lock_unlock_round_trip 16 1 (mkCritSec (Some 1) 1) w_locked).
  - reflexivity.
  - right. split; [reflexivity | simpl; lia].
Defined.

(** X8: while thread [t1] holds the mutex, pthread_mutex_lock by another
    thread [t2] is suspended and changes no critical section; once [t1] has
    unlocked, the same call by [t2] returns 0 and [t2] is the owner. *)
Theorem mutex_hand_over (mutex t1 t2 : Z) (w : World) :
  t1 <> t2 ->
  w_crit w !! mutex = Some (mkCritSec (Some t1) 1) ->
  as_thread t2 (pthread_mutex_lock mutex) w = (Blocked, with_self t2 w) /\
  exists w1 w2,
    as_thread t1 (pthread_mutex_unlock mutex) w = (Ok 0, w1) /\
    as_thread t2 (pthread_mutex_lock mutex) w1 = (Ok 0, w2) /\
    w_crit w2 !! mutex = Some (mkCritSec (Some t2) 1).
Proof.
  intros Hne Hc.
  unfold as_thread, pthread_mutex_lock, pthread_mutex_unlock, bind,
    EnterCriticalSection, LeaveCriticalSection.
  cbn [with_self w_crit w_self]. rewrite Hc. cbn [cs_owner cs_depth].
  destruct (Z.eqb_spec t1 t2) as [E | _]; [contradiction |].
  split; [reflexivity |].
  eexists. eexists. split; [reflexivity |].
  cbn [with_self with_crit w_crit w_self ret]. rewrite lookup_insert_eq.
  cbn [cs_owner]. split; [reflexivity |].
  cbn [with_crit w_crit]. apply lookup_insert_eq.
Qed.

Lemma mutex_hand_over_witness :
  as_thread 2 (pthread_mutex_lock 16) w_locked = (Blocked, with_self 2 w_locked) /\
  exists w1 w2,
    as_thread 1 (pthread_mutex_unlock 16) w_locked = (Ok 0, w1) /\
    as_thread 2 (pthread_mutex_lock 16) w1 = (Ok 0, w2) /\
    w_crit w2 !! 16 = Some (mkCritSec (Some 2) 1).
Proof.
  apply (mutex_hand_over 16 1 2 w_locked).
  - discriminate.
  - reflexivity.
Defined.

(** ** Condition variables *)




(** The wait, signal, resume cycle on a condition variable nobody waits
    on, by a thread that holds the mutex once. *)
Lemma wait_signal_cycle (cond mutex t t' : Z) (w : World) :
  w_cond w !! cond = Some (mkCondVar [] []) ->
  w_crit w !! mutex = Some (mkCritSec (Some t) 1) ->
  exists w1 w2 w3,
    as_thread t (pthread_cond_wait cond mutex) w = (Blocked, w1) /\
    mutex_held w1 mutex = false /\
    cond_has_waiters w1 cond = true /\
    as_thread t' (pthread_cond_signal cond) w1 = (Ok 0, w2) /\
    as_thread t (pthread_cond_wait cond mutex) w2 = (Ok 0, w3) /\
    w_crit w3 !! mutex = Some (mkCritSec (Some t) 1) /\
    w_cond w3 !! cond = Some (mkCondVar [] []).
Proof.
  intros Hcv Hc.
  eexists. eexists. eexists.
  split.
  { unfold as_thread, pthread_cond_wait, SleepConditionVariableCS.
    unfold bind at 1. cbn [with_self w_cond w_self]. rewrite Hcv.
    cbn [cv_woken cv_waiting is_in existsb].
    unfold bind, LeaveCriticalSection. cbn [with_self w_crit w_self].
    rewrite Hc. cbn [cs_depth]. reflexivity. }
  split.
  { unfold mutex_held. cbn [with_cond with_crit with_self w_crit].
    now rewrite lookup_insert_eq. }
  split.
  { unfold cond_has_waiters. cbn [with_cond with_crit with_self w_cond].
    now rewrite lookup_insert_eq. }
  split.
  { unfold as_thread, pthread_cond_signal, bind, WakeConditionVariable.
    cbn [with_cond with_crit with_self w_cond].
    rewrite lookup_insert_eq. cbn [cv_waiting app]. reflexivity. }
  split.
  { unfold as_thread, pthread_cond_wait, SleepConditionVariableCS.
    unfold bind at 1. cbn [with_cond with_crit with_self w_cond w_self].
    rewrite lookup_insert_eq.
    cbn [cv_woken cv_waiting app is_in existsb]. rewrite Z.eqb_refl.
    cbn [orb]. unfold bind, EnterCriticalSection.
    cbn [with_cond with_crit with_self w_crit w_self].
    rewrite lookup_insert_eq. cbn [cs_owner]. reflexivity. }
  split.
  { cbn [with_cond with_crit with_self w_crit]. apply lookup_insert_eq. }
  cbn [with_cond with_crit with_self w_cond]. rewrite lookup_insert_eq.
  unfold without. rewrite filter_cons, filter_nil.
  destruct (decide _) as [H | _]; [| reflexivity].
  rewrite Z.eqb_refl in H. destruct H.
Qed.

(** X10: a thread that holds the mutex and calls pthread_cond_wait on a
    condition variable nobody waits on is suspended with the mutex
    released; after a pthread_cond_signal by another thread its wait
    returns 0, it holds the mutex again, and nobody is left waiting. *)
Theorem cond_wait_signal_round_trip (cond mutex t t' : Z) (w : World) :
  w_cond w !! cond = Some (mkCondVar [] []) ->
  w_crit w !! mutex = Some (mkCritSec (Some t) 1) ->
  exists w1 w2 w3,
    as_thread t (pthread_cond_wait cond mutex) w = (Blocked, w1) /\
    mutex_held w1 mutex = false /\
    cond_has_waiters w1 cond = true /\
    as_thread t' (pthread_cond_signal cond) w1 = (Ok 0, w2) /\
    as_thread t (pthread_cond_wait cond mutex) w2 = (Ok 0, w3) /\
    w_crit w3 !! mutex = Some (mkCritSec (Some t) 1) /\
    w_cond w3 !! cond = Some (mkCondVar [] []).
Proof. exact (wait_signal_cycle cond mutex t t' w). Qed.

Lemma cond_wait_signal_round_trip_witness :
  exists w1 w2 w3,
    as_thread 1 (pthread_cond_wait 24 16) w_ready = (Blocked, w1) /\
    as_thread 2 (pthread_cond_signal 24) w1 = (Ok 0, w2) /\
    as_thread 1 (pthread_cond_wait 24 16) w2 = (Ok 0, w3) /\
    mutex_held w3 16 = true.
Proof.
  destruct (cond_wait_signal_round_trip 24 16 1 2 w_ready)
    as [w1 [w2 [w3 [H1 [_ [_ [H2 [H3 [Hm _]]]]]]]]].
  - reflexivity.
  - reflexivity.
  - exists w1, w2, w3. split; [exact H1 |]. split; [exact H2 |].
    split; [exact H3 |]. unfold mutex_held. now rewrite Hm.
Defined.



(** X12: on a condition variable with nobody waiting, pthread_cond_signal
    and pthread_cond_broadcast return 0 and change nothing at all, so a
    wake-up sent before a thread waits is not remembered. *)
Theorem cond_wake_without_waiters (cond : Z) (w : World) :
  cond_has_waiters w cond = false ->
  pthread_cond_signal cond w = (Ok 0, w) /\
  pthread_cond_broadcast cond w = (Ok 0, w).
Proof.
  unfold cond_has_waiters, pthread_cond_signal, pthread_cond_broadcast, bind,
    WakeConditionVariable, WakeAllConditionVariable.
  destruct (w_cond w !! cond) as [cv |] eqn:Hcv; [| now split].
  destruct cv as [waiting woken]. cbn [cv_waiting cv_woken].
  destruct waiting as [| t rest]; [| discriminate].
  intros _. split; [reflexivity |].
  rewrite app_nil_r, (insert_id _ _ _ Hcv). now destruct w.
Qed.

Lemma cond_wake_without_waiters_witness :
  pthread_cond_signal 24 w_ready = (Ok 0, w_ready) /\
  pthread_cond_broadcast 24 w_ready = (Ok 0, w_ready).
Proof.
  apply (cond_wake_without_waiters 24 w_ready). reflexivity.
Defined.

(** ** One-time initialisation, continued *)

(** X13: an initializer that calls pthread_once on its own guard does not
    recurse: the nested call finds the guard completed and runs nothing, so
    the inner initializer is never applied and the outer call returns 0
    with only the guard written. *)
Theorem pthread_once_nested_call_is_noop (complete : Z) (inner : Mem -> Mem)
    (w : World) :
  complete <> NULL ->
  w_mem w !! complete = Some (Z.b2z PTHREAD_ONCE_INIT) ->
  pthread_once complete (reenter complete inner) w =
    (Ok 0, with_mem (<[complete := Z.b2z PTHREAD_ONCE_COMPLETED]> (w_mem w)) w).
Proof.
  intros Hp Hv. rewrite (pthread_once_first _ _ _ Hp Hv).
  unfold reenter.
  rewrite (pthread_once_completed complete 1); [reflexivity | exact Hp | | discriminate].
  cbn [with_mem w_mem]. apply lookup_insert_eq.
Qed.

Lemma pthread_once_nested_call_is_noop_witness :
  fst (pthread_once 100 (reenter 100 (bump 300)) w_guard) = Ok 0 /\
  w_mem (snd (pthread_once 100 (reenter 100 (bump 300)) w_guard)) !! 300 = Some 0 /\
  w_mem (snd (pthread_once 100 (reenter 100 (bump 300)) w_guard)) !! 100 = Some 1.
Proof.
  rewrite (pthread_once_nested_call_is_noop 100 (bump 300) w_guard).
  - repeat split.
  - discriminate.
  - reflexivity.
Defined.

(** ** Life cycle *)

Lemma pthread_mutex_init_ok (mutex : Z) (w : World) :
  pthread_mutex_init mutex NULL w =
    (Ok 0, with_crit (<[mutex := mkCritSec None 0]> (w_crit w)) w).
Proof. reflexivity. Qed.

(** X14: from any world, once pthread_mutex_init and pthread_cond_init
    (with any attribute argument) have run and a thread has locked the
    mutex, that thread's pthread_cond_wait is suspended, a
    pthread_cond_signal by another thread returns 0, and the wait then returns
    0 with the mutex held by the waiting thread again. *)
Theorem init_wait_signal_life_cycle (mutex cond opts t t' : Z) (w : World) :
  exists w0 w1 w2 w3,
    (pthread_mutex_init mutex NULL ;; pthread_cond_init cond opts ;;
     as_thread t (pthread_mutex_lock mutex)) w = (Ok 0, w0) /\
    as_thread t (pthread_cond_wait cond mutex) w0 = (Blocked, w1) /\
    as_thread t' (pthread_cond_signal cond) w1 = (Ok 0, w2) /\
    as_thread t (pthread_cond_wait cond mutex) w2 = (Ok 0, w3) /\
    w_crit w3 !! mutex = Some (mkCritSec (Some t) 1).
Proof.
  set (w0 := with_crit (<[mutex := mkCritSec (Some t) 1]>
                          (<[mutex := mkCritSec None 0]> (w_crit w)))
               (with_self t
                  (with_cond (<[cond := mkCondVar [] []]> (w_cond w))
                     (with_crit (<[mutex := mkCritSec None 0]> (w_crit w)) w)))).
  assert (H0 : (pthread_mutex_init mutex NULL ;; pthread_cond_init cond opts ;;
                as_thread t (pthread_mutex_lock mutex)) w = (Ok 0, w0)).
  { unfold bind at 1. rewrite pthread_mutex_init_ok.
    unfold bind at 1. unfold pthread_cond_init, bind at 1,
      InitializeConditionVariable, ret.
    unfold as_thread, pthread_mutex_lock, bind, EnterCriticalSection.
    cbn [with_cond with_crit with_self w_crit w_self].
    rewrite lookup_insert_eq. reflexivity. }
  destruct (wait_signal_cycle cond mutex t t' w0)
    as [w1 [w2 [w3 [H1 [_ [_ [H2 [H3 [Hm _]]]]]]]]].
  - unfold w0. cbn [with_cond with_crit with_self w_cond]. apply lookup_insert_eq.
  - unfold w0. cbn [with_cond with_crit with_self w_crit]. apply lookup_insert_eq.
  - exists w0, w1, w2, w3. repeat split; assumption.
Qed.
